(** * PETSc-RAII: the reference-counted ownership wrapper [petsc_smart_ptr]

    A shallow embedding of [include/petsc_smart_ptr.hpp] (the current
    header) and of the earlier draft of the same header, together with the
    properties of construction, access and destruction of the wrapper.

    The wrapper is a pair of fields, a raw handle [m_ptr] and a status code
    [m_ierr]; its member functions talk to two external collaborators, the
    numerical library (object reference counts, allocator, matrix
    life cycle) and the messaging substrate (the non-blocking probe).  The
    collaborators are an interface ([Library]); every call the wrapper
    issues is also appended to a trace, so that "which calls, in which
    order" is a statement about the trace and "which reference count" is a
    statement about the library state. *)

From Stdlib Require Import ZArith List.
From stdpp Require Import base option list gmap.
Import ListNotations.

Local Open Scope Z_scope.

(** ** Data *)

(** [PetscErrorCode] and [PetscInt] are C integers; the wrapper only stores
    and compares them, it does no arithmetic on them. *)
Abbreviation PetscError := Z.
Abbreviation PetscInt := Z.
Abbreviation MPI_Comm := Z.

(** A handle [T*]: [None] is the null pointer. *)
Abbreviation addr := positive.
Abbreviation handle := (option positive).
Abbreviation NULL := (@None addr).

(** Modelled from the spec: the status macros of the library's error header,
    which is not part of the sources.  The wrapper only relies on their
    being non-zero ([0] is success) and pairwise distinct; the numbers are
    the ones of petscerror.h, [PETSC_ERR_WRONGSTATE] standing for the
    wrong-state code. *)
Definition PETSC_ERR_MEM : PetscError := 55.
Definition PETSC_ERR_SUP : PetscError := 56.
Definition PETSC_ERR_SIG : PetscError := 59.
Definition PETSC_ERR_ARG_CORRUPT : PetscError := 64.
Definition PETSC_ERR_POINTER : PetscError := 70.
Definition PETSC_ERR_WRONGSTATE : PetscError := 73.

(** The two fields of [petsc_smart_ptr_base<T>], in declaration order. *)
Record petsc_smart_ptr_base := Wrapper {
  m_ierr : PetscError;
  m_ptr : handle
}.

Definition set_m_ierr (e : PetscError) (w : petsc_smart_ptr_base) :=
  {| m_ierr := e; m_ptr := m_ptr w |}.
Definition set_m_ptr (p : handle) (w : petsc_smart_ptr_base) :=
  {| m_ierr := m_ierr w; m_ptr := p |}.

(** ** The external collaborators *)

(** One constructor per entry point the wrapper calls. *)
Inductive call :=
| MPI_Iprobe_call
| PetscObjectReference_call (obj : handle)
| PetscObjectDereference_call (obj : handle)
| PetscObjectGetReference_call (obj : handle)
| PetscFree_call (p : handle)
| MatCreate_call (comm : MPI_Comm)
| MatDestroy_call (A : handle).

(** The library and the messaging substrate, over a state [L] of their own.
    Entry points with an output argument return what they leave in it:
    [PetscObjectGetReference] the count it wrote ([None]: nothing written),
    [PetscFree], [MatCreate] and [MatDestroy] the value of the caller's
    pointer afterwards. *)
Class Library (L : Type) := {
  MPI_Iprobe : L -> bool * L;
  PetscObjectReference : handle -> L -> PetscError * L;
  PetscObjectDereference : handle -> L -> PetscError * L;
  PetscObjectGetReference : handle -> L -> PetscError * option PetscInt * L;
  PetscFree : handle -> L -> handle * L;
  MatCreate : MPI_Comm -> handle -> L -> PetscError * handle * L;
  MatDestroy : handle -> L -> PetscError * handle * L
}.

(** What [*m_ptr] denotes: the object at a non-null address; on the null
    pointer the expression has no defined result. *)
Inductive lvalue :=
| ObjectAt (a : addr)
| NullDereference.

(** ** Member functions as state transformers with an error exit *)

Inductive outcome (A : Type) :=
| Returned (a : A)
| Aborted (ierr : PetscError).
Arguments Returned {A} a.
Arguments Aborted {A} ierr.

Section Wrapper.
Context {L : Type} `{!Library L}.

(** What a member function can touch: the object it runs on, the
    collaborators' state, and the calls issued so far (oldest first). *)
Record state := State {
  this : petsc_smart_ptr_base;
  lib : L;
  trace : list call
}.

Definition M (A : Type) : Type := state -> outcome A * state.

Global Instance M_ret : MRet M := fun A a s => (Returned a, s).
Global Instance M_bind : MBind M := fun A B f m s =>
  match m s with
  | (Returned a, s') => f a s'
  | (Aborted e, s') => (Aborted e, s')
  end.

Definition read_m_ptr : M handle := fun s => (Returned (m_ptr (this s)), s).
Definition read_m_ierr : M PetscError := fun s => (Returned (m_ierr (this s)), s).
Definition write_m_ierr (e : PetscError) : M unit := fun s =>
  (Returned tt, {| this := set_m_ierr e (this s); lib := lib s; trace := trace s |}).
Definition write_m_ptr (p : handle) : M unit := fun s =>
  (Returned tt, {| this := set_m_ptr p (this s); lib := lib s; trace := trace s |}).

(** A call to a collaborator: logged, then answered from its state. *)
Definition invoke {A : Type} (c : call) (f : L -> A * L) : M A := fun s =>
  let '(a, l') := f (lib s) in
  (Returned a, {| this := this s; lib := l'; trace := trace s ++ [c] |}).

(** Modelled from the spec: the [CHKERRQ] macro, which is not part of the
    sources.  A non-zero status leaves the running constructor or
    destructor at once through the fatal path (the process aborts after
    surfacing the code); nothing after the check is executed. *)
Definition CHKERRQ (ierr : PetscError) : M unit := fun s =>
  if ierr =? 0 then (Returned tt, s) else (Aborted ierr, s).

(** [PetscInt refcount()] *)
Definition refcount : M (option PetscInt) :=
  p ← read_m_ptr;
  r ← invoke (PetscObjectGetReference_call p)
             (PetscObjectGetReference p);
  mret r.2.

(** [PetscError refcount(PetscInt* cnt)]: the body calls
    [PetscObjectReference], the increment entry point, with the slot as an
    extra argument; that entry point has no output argument, so the slot
    keeps its value.  The status it reports is dropped and [0] is
    returned.  The result pairs the returned status with the slot. *)
Definition refcount_into (cnt : PetscInt) : M (PetscError * PetscInt) :=
  p ← read_m_ptr;
  _ ← invoke (PetscObjectReference_call p) (PetscObjectReference p);
  mret (0, cnt).

(** [virtual ~petsc_smart_ptr_base()] *)
Definition dtor_petsc_smart_ptr_base : M unit :=
  p ← read_m_ptr;
  if p is Some _ then
    flag ← invoke MPI_Iprobe_call MPI_Iprobe;
    _ ← (if (flag : bool) then write_m_ierr PETSC_ERR_SIG else mret tt);
    e ← read_m_ierr;
    _ ← CHKERRQ e;
    e ← invoke (PetscObjectDereference_call p) (PetscObjectDereference p);
    _ ← write_m_ierr e;
    r ← refcount_into (Z.b2z flag);
    _ ← write_m_ierr r.1;
    e ← read_m_ierr;
    _ ← (if e =? 0 then
           q ← invoke (PetscFree_call p) (PetscFree p);
           _ ← write_m_ptr q;
           if q is Some _ then write_m_ierr PETSC_ERR_WRONGSTATE else mret tt
         else
           e' ← invoke (PetscObjectReference_call p) (PetscObjectReference p);
           write_m_ierr e');
    e ← read_m_ierr;
    CHKERRQ e
  else mret tt.

(** Running a member function on the object [w]. *)
Definition on (w : petsc_smart_ptr_base) {A : Type} (body : M A)
    (l : L) (tr : list call) : outcome A * state :=
  body {| this := w; lib := l; trace := tr |}.

(** [petsc_smart_ptr_base(T& ptr)]: [m_ptr(std::addressof(ptr))], so the
    handle is the (non-null) address of a live object; the body takes a
    reference on it.  [m_ierr] has no initialiser: the body's first
    statement assigns it before anything reads it. *)
Definition petsc_smart_ptr_base_from_ref (ptr : addr) : L -> list call -> outcome unit * state :=
  on {| m_ierr := 0; m_ptr := Some ptr |}
     (p ← read_m_ptr;
      e ← invoke (PetscObjectReference_call p) (PetscObjectReference p);
      _ ← write_m_ierr e;
      e ← read_m_ierr;
      CHKERRQ e).

(** [petsc_smart_ptr_base(T* ptr)] *)
Definition petsc_smart_ptr_base_from_ptr (ptr : handle) : L -> list call -> outcome unit * state :=
  on {| m_ierr := 0; m_ptr := ptr |}
     (p ← read_m_ptr;
      e ← invoke (PetscObjectReference_call p) (PetscObjectReference p);
      _ ← write_m_ierr e;
      e ← read_m_ierr;
      CHKERRQ e).

(** [petsc_smart_ptr_base(petsc_smart_ptr_base& ptr)], the copy
    constructor: [m_ptr(ptr.m_ptr), m_ierr(ptr.m_ierr)], then a reference
    is taken through the source wrapper, that is, on the handle both
    wrappers now hold.  The source wrapper itself is not written. *)
Definition petsc_smart_ptr_base_copy (ptr : petsc_smart_ptr_base) : L -> list call -> outcome unit * state :=
  on {| m_ierr := m_ierr ptr; m_ptr := m_ptr ptr |}
     (e ← invoke (PetscObjectReference_call (m_ptr ptr))
                 (PetscObjectReference (m_ptr ptr));
      _ ← write_m_ierr e;
      e ← read_m_ierr;
      CHKERRQ e).

(** [petsc_smart_ptr_base(petsc_smart_ptr_base&& ptr)], the move
    constructor: [m_ptr(ptr.m_ptr), m_ierr(ptr.m_ierr)], then the body
    runs the destructor of the source, [ptr.~petsc_smart_ptr_base()].
    The result is the new wrapper together with the outcome and state of
    that destructor run, whose [this] is the source afterwards. *)
Definition petsc_smart_ptr_base_move (ptr : petsc_smart_ptr_base)
    (l : L) (tr : list call) : petsc_smart_ptr_base * (outcome unit * state) :=
  ({| m_ierr := m_ierr ptr; m_ptr := m_ptr ptr |},
   on ptr dtor_petsc_smart_ptr_base l tr).

(** [void request_ierr(PetscError& ierr) const]: the value left in the
    caller's slot. *)
Definition request_ierr_into (ierr : PetscError) : M PetscError :=
  e ← read_m_ierr; mret e.

(** [PetscError request_ierr() const] *)
Definition request_ierr : M PetscError := read_m_ierr.

(** [T* get()] *)
Definition get : M handle := read_m_ptr.

(** [PetscError get(T* ptr)]: the parameter is a local of the callee; the
    body assigns to it and returns [0].  The result pairs the returned
    status with the final value of that local. *)
Definition get_into (ptr : handle) : M (PetscError * handle) :=
  p ← read_m_ptr;
  let ptr := p in
  mret (0, ptr).

(** A call [status = w.get(p)] seen from the caller, whose pointer
    variable holds [p]: the argument is passed by value, so the callee's
    local dies at the return and the caller's variable is not written.
    The result pairs the returned status with the caller's variable after
    the call. *)
Definition call_get_into (p : handle) : M (PetscError * handle) :=
  r ← get_into p;
  mret (r.1, p).

(** [T* operator->()] (the [const] overload has the same body) *)
Definition operator_arrow : M handle :=
  p ← read_m_ptr;
  _ ← (if p is None then write_m_ierr PETSC_ERR_POINTER else mret tt);
  read_m_ptr.

(** [T& operator*()] (the [const] overload has the same body):
    [return *m_ptr;], with no test of the handle and no write to the
    status. *)
Definition operator_star : M lvalue :=
  p ← read_m_ptr;
  mret (match p with Some a => ObjectAt a | None => NullDereference end).

(** [petsc_smart_ptr<_p_Mat>::petsc_smart_ptr(Mat ptr, MPI_Comm comm)]:
    the base constructor from a pointer, then [MatCreate(comm, &m_ptr)]
    as a statement of its own (its status is not assigned to anything),
    then [CHKERRQ(m_ierr)]. *)
Definition petsc_smart_ptr_Mat (ptr : handle) (comm : MPI_Comm)
    (l : L) (tr : list call) : outcome unit * state :=
  match petsc_smart_ptr_base_from_ptr ptr l tr with
  | (Returned _, s) =>
      (p ← read_m_ptr;
       r ← invoke (MatCreate_call comm) (MatCreate comm p);
       _ ← write_m_ptr r.2;
       e ← read_m_ierr;
       CHKERRQ e) s
  | (Aborted e, s) => (Aborted e, s)
  end.

(** [petsc_smart_ptr<_p_Mat>::~petsc_smart_ptr()]: [MatDestroy(&m_ptr)],
    after which the base destructor runs. *)
Definition dtor_petsc_smart_ptr_Mat : M unit :=
  p ← read_m_ptr;
  r ← invoke (MatDestroy_call p) (MatDestroy p);
  _ ← write_m_ptr r.2;
  dtor_petsc_smart_ptr_base.

End Wrapper.

Arguments state L : clear implicits.

(** ** The earlier draft of the header

    The revision in which the constructors take [const T&] and [const T*]
    and the destructor has neither the null guard nor the reference-count
    steps. *)
Module Draft.
Section Wrapper.
Context {L : Type} `{!Library L}.

(** [petsc_smart_ptr_base(const T& ptr)]: [m_ptr(std::addressof(ptr))],
    [m_ierr = 0; CHKERRQ(m_ierr);] *)
Definition petsc_smart_ptr_base_from_ref (ptr : addr) : L -> list call -> outcome unit * state L :=
  on {| m_ierr := 0; m_ptr := Some ptr |}
     (_ ← write_m_ierr 0;
      e ← read_m_ierr;
      CHKERRQ e).

(** [petsc_smart_ptr_base(const T* ptr)]: [m_ptr(ptr)], [m_ierr = 0;],
    then the check (written on [ierr], the status it has just set). *)
Definition petsc_smart_ptr_base_from_ptr (ptr : handle) : L -> list call -> outcome unit * state L :=
  on {| m_ierr := 0; m_ptr := ptr |}
     (_ ← write_m_ierr 0;
      e ← read_m_ierr;
      CHKERRQ e).

(** [virtual ~petsc_smart_ptr_base()] of the draft *)
Definition dtor_petsc_smart_ptr_base : M unit :=
  flag ← invoke MPI_Iprobe_call MPI_Iprobe;
  _ ← (if (flag : bool) then write_m_ierr PETSC_ERR_SIG else mret tt);
  e ← read_m_ierr;
  _ ← CHKERRQ e;
  p ← read_m_ptr;
  q ← invoke (PetscFree_call p) (PetscFree p);
  _ ← write_m_ptr q;
  _ ← (if q is Some _ then write_m_ierr PETSC_ERR_WRONGSTATE else mret tt);
  e ← read_m_ierr;
  CHKERRQ e.

End Wrapper.
End Draft.

(** ** A reference library *)

(** Modelled from the spec: the library's object table and the messaging
    substrate, which are external to the sources (section 6 of the
    specification lists the entry points).  [objects] maps each live
    library object to its reference count, [pending] is the answer of the
    non-blocking probe, and [heap_full] makes allocation fail. *)
Record petsc := Petsc {
  objects : gmap addr PetscInt;
  pending : bool;
  heap_full : bool
}.

Definition with_objects (m : gmap addr PetscInt) (l : petsc) : petsc :=
  {| objects := m; pending := pending l; heap_full := heap_full l |}.

(** Modelled from the spec: the count the library reports for a handle;
    [None] when the handle is null or names no live object. *)
Definition count_of (obj : handle) (l : petsc) : option PetscInt :=
  a ← obj; objects l !! a.

(** Modelled from the spec: the probe reports whether a message is pending
    and consumes nothing. *)
Definition petsc_Iprobe (l : petsc) : bool * petsc := (pending l, l).

(** Modelled from the spec: the increment call adds one to the count of a
    live object and reports failure on anything else. *)
Definition petsc_ObjectReference (obj : handle) (l : petsc) : PetscError * petsc :=
  match obj with
  | Some a =>
      match objects l !! a with
      | Some n => (0, with_objects (<[a := n + 1]> (objects l)) l)
      | None => (PETSC_ERR_ARG_CORRUPT, l)
      end
  | None => (PETSC_ERR_ARG_CORRUPT, l)
  end.

(** Modelled from the spec: the decrement call takes one off the count of a
    live object and reports failure on anything else. *)
Definition petsc_ObjectDereference (obj : handle) (l : petsc) : PetscError * petsc :=
  match obj with
  | Some a =>
      match objects l !! a with
      | Some n => (0, with_objects (<[a := n - 1]> (objects l)) l)
      | None => (PETSC_ERR_ARG_CORRUPT, l)
      end
  | None => (PETSC_ERR_ARG_CORRUPT, l)
  end.

(** Modelled from the spec: the get-reference-count call writes the count
    of a live object and changes nothing. *)
Definition petsc_ObjectGetReference (obj : handle) (l : petsc)
    : PetscError * option PetscInt * petsc :=
  match count_of obj l with
  | Some n => (0, Some n, l)
  | None => (PETSC_ERR_ARG_CORRUPT, None, l)
  end.

(** Modelled from the spec: the allocator's free releases the storage at a
    live address and clears the caller's pointer; freeing the null pointer
    is a no-op; an address it does not know is left in the pointer. *)
Definition petsc_Free (p : handle) (l : petsc) : handle * petsc :=
  match p with
  | Some a =>
      match objects l !! a with
      | Some _ => (NULL, with_objects (delete a (objects l)) l)
      | None => (Some a, l)
      end
  | None => (NULL, l)
  end.

(** Modelled from the spec: the matrix constructor allocates a new object
    with one reference and stores its address through the caller's pointer;
    when allocation fails it reports out-of-memory and leaves the pointer. *)
Definition petsc_MatCreate (comm : MPI_Comm) (p : handle) (l : petsc)
    : PetscError * handle * petsc :=
  if heap_full l then (PETSC_ERR_MEM, p, l)
  else
    let a := fresh (dom (objects l)) in
    (0, Some a, with_objects (<[a := 1]> (objects l)) l).

(** Modelled from the spec: the matrix destructor gives up one reference,
    releases the object when that was the last one, and nulls the caller's
    pointer; on the null pointer it does nothing. *)
Definition petsc_MatDestroy (p : handle) (l : petsc) : PetscError * handle * petsc :=
  match p with
  | Some a =>
      match objects l !! a with
      | Some n =>
          if 1 <? n then (0, NULL, with_objects (<[a := n - 1]> (objects l)) l)
          else (0, NULL, with_objects (delete a (objects l)) l)
      | None => (PETSC_ERR_ARG_CORRUPT, Some a, l)
      end
  | None => (0, NULL, l)
  end.

Global Instance petsc_library : Library petsc := {|
  MPI_Iprobe := petsc_Iprobe;
  PetscObjectReference := petsc_ObjectReference;
  PetscObjectDereference := petsc_ObjectDereference;
  PetscObjectGetReference := petsc_ObjectGetReference;
  PetscFree := petsc_Free;
  MatCreate := petsc_MatCreate;
  MatDestroy := petsc_MatDestroy
|}.

(** A quiet library holding one object, at address [1], with [n]
    references. *)
Definition one_object (n : PetscInt) : petsc :=
  {| objects := {[ 1%positive := n ]}; pending := false; heap_full := false |}.

Definition h1 : handle := Some 1%positive.

(** A library in which a message is pending for this process. *)
Definition busy_library : petsc :=
  {| objects := {[ 1%positive := 1 ]}; pending := true; heap_full := false |}.


(** ** The remaining constructors *)

Section Unspecialised.
Context {L : Type} `{!Library L}.

(** [petsc_smart_ptr_base()]: [m_ptr(malloc(sizeof(T))), m_ierr(0)], then
    the test of the allocation.  [malloc] belongs to the C runtime, not to
    the library: [mem] is the pointer it returned, null when it failed. *)
Definition petsc_smart_ptr_base_default (mem : handle)
    : L -> list call -> outcome unit * state L :=
  on {| m_ierr := 0; m_ptr := mem |}
     (p ← read_m_ptr;
      _ ← (if p is None then write_m_ierr PETSC_ERR_MEM else mret tt);
      e ← read_m_ierr;
      CHKERRQ e).

(** The body shared by the three constructors of the unspecialised
    template [petsc_smart_ptr<T>]: [m_ierr = PETSC_ERR_SUP;
    CHKERRQ(m_ierr);], run once the base constructor is through. *)
Definition unsupported_body (base : outcome unit * state L) : outcome unit * state L :=
  match base with
  | (Returned _, s) =>
      (_ ← write_m_ierr PETSC_ERR_SUP;
       e ← read_m_ierr;
       CHKERRQ e) s
  | (Aborted e, s) => (Aborted e, s)
  end.

(** [petsc_smart_ptr<T>::petsc_smart_ptr()] *)
Definition petsc_smart_ptr_default (mem : handle) (l : L) (tr : list call) :=
  unsupported_body (petsc_smart_ptr_base_default mem l tr).

(** [petsc_smart_ptr<T>::petsc_smart_ptr(const T& ptr)] *)
Definition petsc_smart_ptr_from_ref (ptr : addr) (l : L) (tr : list call) :=
  unsupported_body (petsc_smart_ptr_base_from_ref ptr l tr).

(** [petsc_smart_ptr<T>::petsc_smart_ptr(const T* ptr)] *)
Definition petsc_smart_ptr_from_ptr (ptr : handle) (l : L) (tr : list call) :=
  unsupported_body (petsc_smart_ptr_base_from_ptr ptr l tr).

(** [petsc_smart_ptr<T>::~petsc_smart_ptr()]: an empty body ("nothing to
    do here, base dtor takes care of it"), after which the base destructor
    runs. *)
Definition dtor_petsc_smart_ptr : M unit :=
  _ ← mret tt;
  dtor_petsc_smart_ptr_base.

End Unspecialised.

(** ** Statements about traces *)

(** The calls that adjust an object's reference count directly. *)
Definition adjusts_refcount (c : call) : bool :=
  match c with
  | PetscObjectReference_call _ | PetscObjectDereference_call _ => true
  | _ => false
  end.

Definition no_refcount_call (tr : list call) : bool :=
  forallb (fun c => negb (adjusts_refcount c)) tr.

Section Stated.
Context {L : Type} `{!Library L}.

(** "Move leaves the source inert", read on a move from [a] that starts
    with an empty trace: the source ends with a null handle and status
    [0], destroying it afterwards issues no call, and the move issued no
    reference-count call. *)
Definition move_leaves_source_inert (a : petsc_smart_ptr_base) (l : L) : Prop :=
  let r := (petsc_smart_ptr_base_move a l []).2 in
  m_ptr (this r.2) = NULL /\
  m_ierr (this r.2) = 0 /\
  trace (dtor_petsc_smart_ptr_base r.2).2 = trace r.2 /\
  no_refcount_call (trace r.2) = true.

(** "The reference form adjusts no reference count, the pointer form
    increments it", read on the two constructors applied to the same
    object. *)
Definition reference_form_leaves_count (ptr : addr) (l : L) : Prop :=
  no_refcount_call (trace (petsc_smart_ptr_base_from_ref ptr l []).2) = true /\
  trace (petsc_smart_ptr_base_from_ptr (Some ptr) l []).2 =
    [PetscObjectReference_call (Some ptr)].

(** "The matrix destroy call, then the base protocol on the handle, and a
    null handle at the end": the base protocol opens with the probe, so
    the probe has to follow the destroy call in the trace. *)
Definition matrix_destroy_then_base_protocol (w : petsc_smart_ptr_base) (l : L) : Prop :=
  let r := on w dtor_petsc_smart_ptr_Mat l [] in
  (exists rest, trace r.2 = MatDestroy_call (m_ptr w) :: MPI_Iprobe_call :: rest) /\
  m_ptr (this r.2) = NULL.

End Stated.

(** ** Properties of the destructor, for any library *)

Ltac unfold_member :=
  unfold dtor_petsc_smart_ptr_Mat, dtor_petsc_smart_ptr_base,
    Draft.dtor_petsc_smart_ptr_base, refcount, refcount_into,
    operator_arrow, operator_star, call_get_into, get_into, get,
    request_ierr, request_ierr_into, on;
  unfold mbind, M_bind, mret, M_ret, invoke, CHKERRQ,
    read_m_ptr, read_m_ierr, write_m_ierr, write_m_ptr,
    set_m_ierr, set_m_ptr; cbn.

Section Destruction.
Context {L : Type} `{!Library L}.

(** The guard: on a null handle the destructor does nothing at all. *)
Lemma dtor_null (s : state L) :
  m_ptr (this s) = NULL ->
  dtor_petsc_smart_ptr_base s = (Returned tt, s).
Proof.
  destruct s as [[e p] l tr]; cbn. intros ->. reflexivity.
Qed.

(** A pending message stops the destructor right after the probe. *)
Lemma dtor_pending (s : state L) (a : addr) (l1 : L) :
  m_ptr (this s) = Some a ->
  MPI_Iprobe (lib s) = (true, l1) ->
  dtor_petsc_smart_ptr_base s =
    (Aborted PETSC_ERR_SIG,
     {| this := set_m_ierr PETSC_ERR_SIG (this s); lib := l1;
        trace := trace s ++ [MPI_Iprobe_call] |}).
Proof.
  destruct s as [[e p] l tr]; cbn. intros -> Hprobe.
  unfold_member. rewrite Hprobe. reflexivity.
Qed.

(** A status carried into the destructor stops it at the same place. *)
Lemma dtor_carried_status (s : state L) (a : addr) (l1 : L) :
  m_ptr (this s) = Some a ->
  MPI_Iprobe (lib s) = (false, l1) ->
  m_ierr (this s) <> 0 ->
  dtor_petsc_smart_ptr_base s =
    (Aborted (m_ierr (this s)),
     {| this := this s; lib := l1; trace := trace s ++ [MPI_Iprobe_call] |}).
Proof.
  destruct s as [[e p] l tr]; cbn. intros -> Hprobe He.
  unfold_member. rewrite Hprobe. cbn.
  apply Z.eqb_neq in He. rewrite He. reflexivity.
Qed.

(** Past the first check the destructor always reaches the free: the
    status tested by the conditional is the [0] that the slot overload of
    [refcount] returns, whatever the library answered. *)
Lemma dtor_proceeds (s : state L) (a : addr) (l1 l2 l3 l4 : L)
    (e1 e2 : PetscError) (q : handle) :
  m_ptr (this s) = Some a ->
  m_ierr (this s) = 0 ->
  MPI_Iprobe (lib s) = (false, l1) ->
  PetscObjectDereference (Some a) l1 = (e1, l2) ->
  PetscObjectReference (Some a) l2 = (e2, l3) ->
  PetscFree (Some a) l3 = (q, l4) ->
  dtor_petsc_smart_ptr_base s =
    (if q is Some _ then Aborted PETSC_ERR_WRONGSTATE else Returned tt,
     {| this := {| m_ierr := if q is Some _ then PETSC_ERR_WRONGSTATE else 0;
                   m_ptr := q |};
        lib := l4;
        trace := trace s ++
          [MPI_Iprobe_call; PetscObjectDereference_call (Some a);
           PetscObjectReference_call (Some a); PetscFree_call (Some a)] |}).
Proof.
  destruct s as [[e p] l tr]; cbn. intros -> -> Hprobe Hderef Href Hfree.
  unfold_member. rewrite Hprobe. cbn.
  rewrite Hderef. cbn. rewrite Href. cbn. rewrite Hfree. cbn.
  rewrite <- !app_assoc. cbn.
  destruct q; reflexivity.
Qed.

(** On a non-null handle the destructor starts with the probe. *)
Lemma dtor_probes_first (s : state L) (a : addr) :
  m_ptr (this s) = Some a ->
  exists rest,
    trace (dtor_petsc_smart_ptr_base s).2 = trace s ++ MPI_Iprobe_call :: rest.
Proof.
  intros Hp.
  destruct (MPI_Iprobe (lib s)) as [flag l1] eqn:Hprobe.
  destruct flag.
  { rewrite (dtor_pending s a l1 Hp Hprobe). exists []. reflexivity. }
  destruct (Z.eq_dec (m_ierr (this s)) 0) as [He|He].
  2:{ rewrite (dtor_carried_status s a l1 Hp Hprobe He). exists []. reflexivity. }
  destruct (PetscObjectDereference (Some a) l1) as [e1 l2] eqn:Hderef.
  destruct (PetscObjectReference (Some a) l2) as [e2 l3] eqn:Href.
  destruct (PetscFree (Some a) l3) as [q l4] eqn:Hfree.
  rewrite (dtor_proceeds s a l1 l2 l3 l4 e1 e2 q Hp He Hprobe Hderef Href Hfree).
  eexists. reflexivity.
Qed.

(** C4: if the probe reports a pending message when a wrapper with a
    non-null handle is destroyed, the status becomes [PETSC_ERR_SIG] and
    the destructor leaves through the fatal path with the probe as the only
    call issued: no reference-count decrement and no deallocation call is
    made in that run.  The same holds for the destructor of the draft. *)
Theorem pending_message_blocks_teardown (s : state L) (a : addr) (l1 : L) :
  m_ptr (this s) = Some a ->
  MPI_Iprobe (lib s) = (true, l1) ->
  let stopped :=
    {| this := set_m_ierr PETSC_ERR_SIG (this s); lib := l1;
       trace := trace s ++ [MPI_Iprobe_call] |} in
  PETSC_ERR_SIG <> 0 /\
  dtor_petsc_smart_ptr_base s = (Aborted PETSC_ERR_SIG, stopped) /\
  Draft.dtor_petsc_smart_ptr_base s = (Aborted PETSC_ERR_SIG, stopped) /\
  m_ierr (this stopped) = PETSC_ERR_SIG /\
  (forall obj, PetscObjectDereference_call obj ∉ drop (length (trace s)) (trace stopped)) /\
  (forall p, PetscFree_call p ∉ drop (length (trace s)) (trace stopped)).
Proof.
  intros Hp Hprobe stopped. split; [discriminate|].
  split; [exact (dtor_pending s a l1 Hp Hprobe)|].
  split.
  { unfold stopped. destruct s as [[e p] l tr]; cbn in *.
    unfold_member. rewrite Hprobe. reflexivity. }
  split; [reflexivity|].
  unfold stopped; cbn. rewrite drop_app_length.
  split; intros x Hin; apply list_elem_of_singleton in Hin; discriminate.
Qed.

End Destruction.

(** ** Construction and access, for any library *)

Section Access.
Context {L : Type} `{!Library L}.

(** C10: [get(T* ptr)] assigns the handle to its own by-value parameter and
    returns [0]; seen from the caller the call changes nothing: the
    caller's pointer variable keeps its value, the wrapper, the library
    state and the trace are untouched, and the status is [0] whatever the
    wrapper and the pointer are. *)
Theorem get_into_has_no_effect (s : state L) (p : handle) :
  get_into p s = (Returned (0, m_ptr (this s)), s) /\
  call_get_into p s = (Returned (0, p), s).
Proof.
  split; reflexivity.
Qed.

(** C8: on a null handle member access records [PETSC_ERR_POINTER] and
    returns the null handle, but dereference does neither: [operator*]
    evaluates [*m_ptr] with no test, so the status is left as it was and
    the result is the dereference of a null pointer. *)
Theorem null_dereference_records_nothing (e : PetscError) (l : L) (tr : list call) :
  on (Wrapper e NULL) operator_arrow l tr =
    (Returned NULL, State (Wrapper PETSC_ERR_POINTER NULL) l tr) /\
  on (Wrapper e NULL) operator_star l tr =
    (Returned NullDereference, State (Wrapper e NULL) l tr) /\
  PETSC_ERR_POINTER <> 0.
Proof.
  repeat split. discriminate.
Qed.

(** The slot overload of [refcount] never asks for the count: its only
    call is the increment, its status is [0] and the slot is returned as
    it came. *)
Lemma refcount_into_calls_reference (s : state L) (cnt : PetscInt) :
  (refcount_into cnt s).1 = Returned (0, cnt) /\
  trace (refcount_into cnt s).2 =
    trace s ++ [PetscObjectReference_call (m_ptr (this s))] /\
  this (refcount_into cnt s).2 = this s.
Proof.
  unfold_member. destruct (PetscObjectReference _ _). repeat split.
Qed.

(** The value overload asks for the count and passes on what the library
    wrote. *)
Lemma refcount_calls_get_reference (s : state L) :
  (refcount s).1 = Returned (PetscObjectGetReference (m_ptr (this s)) (lib s)).1.2 /\
  trace (refcount s).2 =
    trace s ++ [PetscObjectGetReference_call (m_ptr (this s))] /\
  this (refcount s).2 = this s.
Proof.
  unfold_member. destruct (PetscObjectGetReference _ _) as [[e n] l1].
  repeat split.
Qed.

(** C5 (amended): in the current header the reference form does exactly
    what the pointer form does on the object's address, and both take one
    reference on the handle; it is in the draft that neither form issues
    any library call. *)
Theorem reference_form_takes_a_reference (ptr : addr) (l : L) (tr : list call) :
  petsc_smart_ptr_base_from_ref ptr l tr =
    petsc_smart_ptr_base_from_ptr (Some ptr) l tr /\
  trace (petsc_smart_ptr_base_from_ref ptr l tr).2 =
    tr ++ [PetscObjectReference_call (Some ptr)] /\
  m_ptr (this (petsc_smart_ptr_base_from_ref ptr l tr).2) = Some ptr /\
  m_ierr (this (petsc_smart_ptr_base_from_ref ptr l tr).2) =
    (PetscObjectReference (Some ptr) l).1 /\
  Draft.petsc_smart_ptr_base_from_ref ptr l tr =
    (Returned tt, State (Wrapper 0 (Some ptr)) l tr) /\
  Draft.petsc_smart_ptr_base_from_ptr (Some ptr) l tr =
    (Returned tt, State (Wrapper 0 (Some ptr)) l tr).
Proof.
  split; [reflexivity|].
  unfold petsc_smart_ptr_base_from_ref. unfold_member.
  destruct (PetscObjectReference (Some ptr) l) as [e l1]; cbn.
  destruct (e =? 0); cbn; repeat split.
Qed.

(** The status of the matrix constructor is the one its base constructor
    left: whatever [MatCreate] reports is not stored. *)
Lemma mat_ctor_keeps_base_status (ptr : handle) (comm : MPI_Comm)
    (l l1 l2 : L) (tr : list call) (e : PetscError) (q : handle) :
  PetscObjectReference ptr l = (0, l1) ->
  MatCreate comm ptr l1 = (e, q, l2) ->
  petsc_smart_ptr_Mat ptr comm l tr =
    (Returned tt,
     State (Wrapper 0 q) l2
       (tr ++ [PetscObjectReference_call ptr; MatCreate_call comm])).
Proof.
  intros Href Hcreate.
  unfold petsc_smart_ptr_Mat, petsc_smart_ptr_base_from_ptr. unfold_member.
  rewrite Href. cbn. rewrite Hcreate. cbn.
  rewrite <- app_assoc. reflexivity.
Qed.

End Access.

(** ** Moving and matrix destruction, for any library *)

Section Transfer.
Context {L : Type} `{!Library L}.

(** C3 (amended): the move constructor gives the new wrapper the handle
    and status of the source and runs the destructor of the source.  On a
    source with a null handle that is no call at all.  On a non-null
    handle the probe is issued, and with status [0] and no pending message
    the reference-count decrement on the handle follows, so the move does
    change the reference count.  Whenever the run leaves the source with a
    null handle, the source has status [0] and destroying it again issues
    no call and changes nothing. *)
Theorem move_runs_source_destructor (a : petsc_smart_ptr_base) (l : L) (tr : list call) :
  let b := (petsc_smart_ptr_base_move a l tr).1 in
  let o := (petsc_smart_ptr_base_move a l tr).2.1 in
  let s := (petsc_smart_ptr_base_move a l tr).2.2 in
  b = a /\
  (m_ptr a = NULL -> o = Returned tt /\ s = State a l tr) /\
  (forall h, m_ptr a = Some h ->
     exists rest, trace s = tr ++ MPI_Iprobe_call :: rest) /\
  (forall h, m_ptr a = Some h -> m_ierr a = 0 -> (MPI_Iprobe l).1 = false ->
     exists rest,
       trace s =
         tr ++ MPI_Iprobe_call :: PetscObjectDereference_call (Some h) :: rest) /\
  (forall h, m_ptr a = Some h -> m_ptr (this s) = NULL ->
     o = Returned tt /\ m_ierr (this s) = 0 /\
     dtor_petsc_smart_ptr_base s = (Returned tt, s)).
Proof.
  destruct a as [e p]. unfold petsc_smart_ptr_base_move, on. cbn [fst snd].
  split; [reflexivity|].
  split. { cbn. intros ->. split; reflexivity. }
  destruct p as [h0|]; [|repeat split; intros; discriminate].
  destruct (MPI_Iprobe l) as [flag l1] eqn:Hprobe.
  destruct flag.
  { rewrite (dtor_pending (State (Wrapper e (Some h0)) l tr) h0 l1 eq_refl Hprobe).
    cbn. repeat split; intros; try discriminate.
    exists []. reflexivity. }
  destruct (Z.eq_dec e 0) as [->|He].
  2:{ rewrite (dtor_carried_status (State (Wrapper e (Some h0)) l tr) h0 l1
                 eq_refl Hprobe He).
      cbn. repeat split; intros; try discriminate; try contradiction.
      exists []. reflexivity. }
  destruct (PetscObjectDereference (Some h0) l1) as [e1 l2] eqn:Hderef.
  destruct (PetscObjectReference (Some h0) l2) as [e2 l3] eqn:Href.
  destruct (PetscFree (Some h0) l3) as [q l4] eqn:Hfree.
  rewrite (dtor_proceeds (State (Wrapper 0 (Some h0)) l tr) h0 l1 l2 l3 l4 e1 e2 q
             eq_refl eq_refl Hprobe Hderef Href Hfree).
  cbn. split; [|split].
  - intros h _. eexists. reflexivity.
  - intros h [= <-] _ _. eexists. reflexivity.
  - intros h _ ->. repeat split.
Qed.

(** C7 (amended): the matrix destructor issues the matrix destroy call and
    then runs the base destructor on what that call left in the handle.
    When the call nulled the handle the guarded base destructor issues no
    further call, so the probe, the decrement and the free do not happen
    and the handle is null at the end; the base protocol, starting with the
    probe, runs only when the call left the handle non-null. *)
Theorem matrix_destroy_then_guarded_base (s : state L)
    (e : PetscError) (q : handle) (l1 : L) :
  MatDestroy (m_ptr (this s)) (lib s) = (e, q, l1) ->
  let s1 :=
    {| this := set_m_ptr q (this s); lib := l1;
       trace := trace s ++ [MatDestroy_call (m_ptr (this s))] |} in
  dtor_petsc_smart_ptr_Mat s = dtor_petsc_smart_ptr_base s1 /\
  (q = NULL ->
     dtor_petsc_smart_ptr_Mat s = (Returned tt, s1) /\ m_ptr (this s1) = NULL) /\
  (forall a, q = Some a ->
     exists rest,
       trace (dtor_petsc_smart_ptr_Mat s).2 = trace s1 ++ MPI_Iprobe_call :: rest).
Proof.
  intros Hdestroy s1.
  assert (Hstep : dtor_petsc_smart_ptr_Mat s = dtor_petsc_smart_ptr_base s1).
  { unfold dtor_petsc_smart_ptr_Mat.
    unfold mbind, M_bind, invoke, read_m_ptr, write_m_ptr. cbn.
    rewrite Hdestroy. reflexivity. }
  split; [exact Hstep|]. rewrite Hstep. split.
  - intros ->. split; [|reflexivity]. apply dtor_null. reflexivity.
  - intros a ->.
    apply (dtor_probes_first s1 a). reflexivity.
Qed.

End Transfer.

(** ** On the reference library *)

(** X15: copy construction on the reference library: the count of the
    shared object goes up by exactly one, every other object is left as it
    was, nothing is allocated, and the new wrapper holds the same handle
    with status [0], whatever status the source had. *)
Lemma copy_increments_by_one (a : petsc_smart_ptr_base) (h : addr)
    (n : PetscInt) (l : petsc) (tr : list call) :
  m_ptr a = Some h ->
  objects l !! h = Some n ->
  petsc_smart_ptr_base_copy a l tr =
    (Returned tt,
     State (Wrapper 0 (Some h))
       (with_objects (<[h := n + 1]> (objects l)) l)
       (tr ++ [PetscObjectReference_call (Some h)])).
Proof.
  destruct a as [e p]; cbn. intros -> Hn.
  unfold petsc_smart_ptr_base_copy, on.
  unfold mbind, M_bind, invoke.
  cbn [lib this trace m_ptr m_ierr PetscObjectReference petsc_library].
  unfold petsc_ObjectReference. rewrite Hn. reflexivity.
Qed.

(** C1: destroying a wrapper whose object has two references.  The probe
    is quiet and the status is [0], the decrement leaves one reference and
    the count stands at two when the conditional is evaluated, yet the
    free is requested: the trace ends with [PetscFree], the object is gone
    from the library and the re-increment branch was not the one taken. *)
Theorem shared_object_is_freed :
  let s := State (Wrapper 0 h1) (one_object 2) [] in
  let r := dtor_petsc_smart_ptr_base s in
  let decremented := (PetscObjectDereference h1 (one_object 2)).2 in
  count_of h1 decremented = Some 1 /\
  count_of h1 (PetscObjectReference h1 decremented).2 = Some 2 /\
  r.1 = Returned tt /\
  trace r.2 =
    [MPI_Iprobe_call; PetscObjectDereference_call h1;
     PetscObjectReference_call h1; PetscFree_call h1] /\
  this r.2 = Wrapper 0 NULL /\
  count_of h1 (lib r.2) = None.
Proof.
  vm_compute. repeat split.
Qed.

(** C2: one copy of a wrapper whose object has one reference, then the
    destruction of that copy.  The copy brings the count from one to two;
    the destructor of the copy takes it to one and back to two and then
    frees the object, so that afterwards the library reports no count for
    the handle at all, instead of the one reference the original still
    holds. *)
Theorem copy_then_destroy_loses_the_object :
  let a := Wrapper 0 h1 in
  let c := petsc_smart_ptr_base_copy a (one_object 1) [] in
  let d := dtor_petsc_smart_ptr_base c.2 in
  count_of h1 (one_object 1) = Some 1 /\
  c.1 = Returned tt /\
  this c.2 = Wrapper 0 h1 /\
  count_of h1 (lib c.2) = Some 2 /\
  d.1 = Returned tt /\
  trace d.2 =
    [PetscObjectReference_call h1; MPI_Iprobe_call;
     PetscObjectDereference_call h1; PetscObjectReference_call h1;
     PetscFree_call h1] /\
  count_of h1
    (PetscObjectReference h1 (PetscObjectDereference h1 (lib c.2)).2).2 = Some 2 /\
  count_of h1 (lib d.2) = None /\
  count_of h1 (lib d.2) <> count_of h1 (one_object 1).
Proof.
  vm_compute. repeat split. discriminate.
Qed.

(** C6: the matrix constructor on a live handle when the library cannot
    allocate.  [MatCreate] reports [PETSC_ERR_MEM], but the wrapper's
    status is the [0] left by the base constructor and the constructor
    returns normally. *)
Theorem mat_create_status_is_dropped (comm : MPI_Comm) :
  let full := {| objects := {[ 1%positive := 1 ]}; pending := false;
                 heap_full := true |} in
  let r := petsc_smart_ptr_Mat h1 comm full [] in
  (MatCreate comm h1 (PetscObjectReference h1 full).2).1.1 = PETSC_ERR_MEM /\
  PETSC_ERR_MEM <> 0 /\
  r.1 = Returned tt /\
  m_ierr (this r.2) = 0 /\
  trace r.2 = [PetscObjectReference_call h1; MatCreate_call comm].
Proof.
  intros full r. split; [reflexivity|]. split; [discriminate|].
  subst r.
  assert (Href : PetscObjectReference h1 full = (0, (PetscObjectReference h1 full).2))
    by (vm_compute; reflexivity).
  assert (Hcreate : MatCreate comm h1 (PetscObjectReference h1 full).2 =
                    (PETSC_ERR_MEM, h1, (PetscObjectReference h1 full).2))
    by reflexivity.
  rewrite (mat_ctor_keeps_base_status h1 comm full _ _ [] _ _ Href Hcreate).
  repeat split.
Qed.

(** C9: the two overloads on a wrapper whose object has one reference.
    The value overload issues the get-reference call, returns the count
    and leaves everything as it was.  The slot overload issues the
    increment call instead: it returns status [0], the slot keeps the [7]
    it held, and the object's count has become two. *)
Theorem refcount_slot_overload_increments :
  let s := State (Wrapper 0 h1) (one_object 1) [] in
  (refcount s).1 = Returned (Some 1) /\
  this (refcount s).2 = Wrapper 0 h1 /\
  lib (refcount s).2 = one_object 1 /\
  trace (refcount s).2 = [PetscObjectGetReference_call h1] /\
  (refcount_into 7 s).1 = Returned (0, 7) /\
  trace (refcount_into 7 s).2 = [PetscObjectReference_call h1] /\
  count_of h1 (lib (refcount_into 7 s).2) = Some 2.
Proof.
  vm_compute. repeat split.
Qed.

(** C3, as stated, fails on a move from a wrapper that holds the only
    reference to a live object: the move issues reference-count calls. *)
Lemma move_changes_refcount :
  ~ move_leaves_source_inert (Wrapper 0 h1) (one_object 1).
Proof.
  unfold move_leaves_source_inert. intros (_ & _ & _ & Hno).
  vm_compute in Hno. discriminate Hno.
Qed.

(** C5, as stated, fails on the address of a live object: the reference
    form issues the increment call. *)
Lemma reference_form_increments :
  ~ reference_form_leaves_count 1%positive (one_object 1).
Proof.
  unfold reference_form_leaves_count. intros [Hno _].
  vm_compute in Hno. discriminate Hno.
Qed.

(** C7, as stated, fails on a matrix wrapper that holds the only reference
    to a live matrix: after the matrix destroy call nothing else is
    issued. *)
Lemma matrix_destroy_skips_base_protocol :
  ~ matrix_destroy_then_base_protocol (Wrapper 0 h1) (one_object 1).
Proof.
  unfold matrix_destroy_then_base_protocol. intros [[rest Hrest] _].
  vm_compute in Hrest. discriminate Hrest.
Qed.

(** ** The general statements at concrete inputs *)

(** The pending-message case on the reference library: one live object,
    a message waiting. *)
Lemma pending_message_blocks_teardown_witness :
  let s := State (Wrapper 0 h1) busy_library [] in
  m_ptr (this s) = Some 1%positive /\
  MPI_Iprobe (lib s) = (true, busy_library) /\
  dtor_petsc_smart_ptr_base s =
    (Aborted PETSC_ERR_SIG,
     State (Wrapper PETSC_ERR_SIG h1) busy_library [MPI_Iprobe_call]) /\
  Draft.dtor_petsc_smart_ptr_base s =
    (Aborted PETSC_ERR_SIG,
     State (Wrapper PETSC_ERR_SIG h1) busy_library [MPI_Iprobe_call]).
Proof.
  intros s.
  pose proof (pending_message_blocks_teardown s 1%positive busy_library
                eq_refl eq_refl) as (_ & Hdtor & Hdraft & _).
  split; [reflexivity|]. split; [reflexivity|].
  split; [exact Hdtor | exact Hdraft].
Defined.

(** A move from the sole holder of a live object on a quiet library. *)
Lemma move_runs_source_destructor_witness :
  let a := Wrapper 0 h1 in
  let r := (petsc_smart_ptr_base_move a (one_object 1) []).2 in
  m_ptr a = Some 1%positive /\
  m_ierr a = 0 /\
  (MPI_Iprobe (one_object 1)).1 = false /\
  m_ptr (this r.2) = NULL /\
  (exists rest,
     trace r.2 =
       [] ++ MPI_Iprobe_call :: PetscObjectDereference_call (Some 1%positive) :: rest) /\
  r.1 = Returned tt /\
  m_ierr (this r.2) = 0 /\
  dtor_petsc_smart_ptr_base r.2 = (Returned tt, r.2).
Proof.
  intros a r.
  pose proof (move_runs_source_destructor a (one_object 1) [])
    as (_ & _ & _ & Hderef & Hnull).
  assert (Hp : m_ptr (this r.2) = NULL) by (vm_compute; reflexivity).
  split; [reflexivity|]. split; [reflexivity|]. split; [reflexivity|].
  split; [exact Hp|].
  split; [exact (Hderef 1%positive eq_refl eq_refl eq_refl)|].
  exact (Hnull 1%positive eq_refl Hp).
Defined.

(** Destroying the sole matrix wrapper of a live matrix. *)
Lemma matrix_destroy_then_guarded_base_witness :
  let s := State (Wrapper 0 h1) (one_object 1) [] in
  let released := (MatDestroy h1 (one_object 1)).2 in
  let s1 := State (Wrapper 0 NULL) released [MatDestroy_call h1] in
  MatDestroy (m_ptr (this s)) (lib s) = (0, NULL, released) /\
  dtor_petsc_smart_ptr_Mat s = (Returned tt, s1) /\
  m_ptr (this s1) = NULL.
Proof.
  intros s released s1.
  assert (Hdestroy : MatDestroy (m_ptr (this s)) (lib s) = (0, NULL, released))
    by (vm_compute; reflexivity).
  split; [exact Hdestroy|].
  pose proof (matrix_destroy_then_guarded_base s 0 NULL released Hdestroy)
    as (_ & Hnull & _).
  exact (Hnull eq_refl).
Defined.

(** ** Further properties of the destructor *)

Section DestructorShape.
Context {L : Type} `{!Library L}.

(** The four ways through the destructor. *)
Lemma dtor_cases (s : state L) :
  (m_ptr (this s) = NULL /\ dtor_petsc_smart_ptr_base s = (Returned tt, s)) \/
  (exists a l1,
     m_ptr (this s) = Some a /\
     dtor_petsc_smart_ptr_base s =
       (Aborted PETSC_ERR_SIG,
        {| this := set_m_ierr PETSC_ERR_SIG (this s); lib := l1;
           trace := trace s ++ [MPI_Iprobe_call] |})) \/
  (exists a l1,
     m_ptr (this s) = Some a /\ m_ierr (this s) <> 0 /\
     dtor_petsc_smart_ptr_base s =
       (Aborted (m_ierr (this s)),
        {| this := this s; lib := l1; trace := trace s ++ [MPI_Iprobe_call] |})) \/
  (exists a q l4,
     m_ptr (this s) = Some a /\ m_ierr (this s) = 0 /\
     dtor_petsc_smart_ptr_base s =
       (if q is Some _ then Aborted PETSC_ERR_WRONGSTATE else Returned tt,
        {| this := {| m_ierr := if q is Some _ then PETSC_ERR_WRONGSTATE else 0;
                      m_ptr := q |};
           lib := l4;
           trace := trace s ++
             [MPI_Iprobe_call; PetscObjectDereference_call (Some a);
              PetscObjectReference_call (Some a); PetscFree_call (Some a)] |})).
Proof.
  destruct (m_ptr (this s)) as [a|] eqn:Hp.
  2:{ left. split; [reflexivity|]. apply dtor_null. exact Hp. }
  right.
  destruct (MPI_Iprobe (lib s)) as [flag l1] eqn:Hprobe.
  destruct flag.
  { left. exists a, l1. split; [reflexivity|]. apply (dtor_pending s a l1 Hp Hprobe). }
  right.
  destruct (Z.eq_dec (m_ierr (this s)) 0) as [He|He].
  2:{ left. exists a, l1. split; [reflexivity|]. split; [exact He|].
      apply (dtor_carried_status s a l1 Hp Hprobe He). }
  right.
  destruct (PetscObjectDereference (Some a) l1) as [e1 l2] eqn:Hderef.
  destruct (PetscObjectReference (Some a) l2) as [e2 l3] eqn:Href.
  destruct (PetscFree (Some a) l3) as [q l4] eqn:Hfree.
  exists a, q, l4. split; [reflexivity|]. split; [exact He|].
  apply (dtor_proceeds s a l1 l2 l3 l4 e1 e2 q Hp He Hprobe Hderef Href Hfree).
Qed.

(** X1: a destructor run that returns normally leaves the handle null,
    and destroying the same wrapper again issues no call and changes
    nothing. *)
Theorem dtor_returns_only_emptied (s s' : state L) :
  dtor_petsc_smart_ptr_base s = (Returned tt, s') ->
  m_ptr (this s') = NULL /\
  dtor_petsc_smart_ptr_base s' = (Returned tt, s').
Proof.
  intros Hrun.
  assert (Hnull : m_ptr (this s') = NULL).
  { destruct (dtor_cases s) as [[Hp Hd]|[(a & l1 & _ & Hd)|[(a & l1 & _ & _ & Hd)|
      (a & q & l4 & _ & _ & Hd)]]]; rewrite Hd in Hrun.
    - injection Hrun as <-. exact Hp.
    - discriminate Hrun.
    - discriminate Hrun.
    - destruct q; [discriminate Hrun|]. injection Hrun as <-. reflexivity. }
  split; [exact Hnull|]. apply dtor_null. exact Hnull.
Qed.

(** X2: a destructor run that leaves through the fatal path does so with
    a non-zero code that is also the wrapper's status afterwards, and the
    wrapper still holds a non-null handle; the code is the signal-pending
    code, the status the wrapper carried in, or the wrong-state code. *)
Theorem dtor_abort_status (s s' : state L) (e : PetscError) :
  dtor_petsc_smart_ptr_base s = (Aborted e, s') ->
  e <> 0 /\
  m_ierr (this s') = e /\
  m_ptr (this s') <> NULL /\
  (e = PETSC_ERR_SIG \/ e = m_ierr (this s) \/ e = PETSC_ERR_WRONGSTATE).
Proof.
  intros Hrun.
  destruct (dtor_cases s) as [[Hp Hd]|[(a & l1 & Hp & Hd)|[(a & l1 & Hp & He & Hd)|
    (a & q & l4 & Hp & _ & Hd)]]]; rewrite Hd in Hrun.
  - discriminate Hrun.
  - injection Hrun as <- <-. cbn. rewrite Hp.
    repeat split; try discriminate. left. reflexivity.
  - injection Hrun as <- <-. cbn. rewrite Hp.
    repeat split; try discriminate; try exact He. right. left. reflexivity.
  - destruct q; [|discriminate Hrun]. injection Hrun as <- <-. cbn.
    repeat split; try discriminate. right. right. reflexivity.
Qed.

(** X3: whatever the library answers, one destructor run issues no call,
    or the probe alone, or the probe, one decrement, one increment and one
    free on the wrapper's handle, in that order; it never asks the library
    for the reference count. *)
Theorem dtor_call_shapes (s : state L) :
  exists new,
    trace (dtor_petsc_smart_ptr_base s).2 = trace s ++ new /\
    (new = [] \/
     new = [MPI_Iprobe_call] \/
     new = [MPI_Iprobe_call; PetscObjectDereference_call (m_ptr (this s));
            PetscObjectReference_call (m_ptr (this s));
            PetscFree_call (m_ptr (this s))]) /\
    (forall obj, PetscObjectGetReference_call obj ∉ new).
Proof.
  destruct (dtor_cases s) as [[Hp Hd]|[(a & l1 & Hp & Hd)|[(a & l1 & Hp & He & Hd)|
    (a & q & l4 & Hp & _ & Hd)]]]; rewrite Hd; cbn [snd trace].
  - exists []. rewrite app_nil_r. split; [reflexivity|]. split; [by left|].
    intros obj Hin. by apply not_elem_of_nil in Hin.
  - exists [MPI_Iprobe_call]. split; [reflexivity|]. split; [by right; left|].
    intros obj Hin. apply list_elem_of_singleton in Hin. discriminate.
  - exists [MPI_Iprobe_call]. split; [reflexivity|]. split; [by right; left|].
    intros obj Hin. apply list_elem_of_singleton in Hin. discriminate.
  - rewrite Hp. eexists. split; [reflexivity|]. split; [by right; right|].
    intros obj Hin. rewrite !elem_of_cons in Hin.
    destruct Hin as [Hin|[Hin|[Hin|[Hin|Hin]]]]; try discriminate.
    by apply not_elem_of_nil in Hin.
Qed.

(** X4: a failure reported by the decrement is never surfaced.  With a
    non-null handle, status [0] and no pending message, even when
    [PetscObjectDereference] reports a non-zero status the destructor goes
    on to the free, and its outcome and the status it leaves depend only on
    whether the free cleared the pointer: normal return with status [0] if
    it did, the wrong-state code if it did not. *)
Theorem dtor_swallows_decrement_failure (s : state L) (a : addr)
    (l1 l2 l3 l4 : L) (e1 e2 : PetscError) (q : handle) :
  m_ptr (this s) = Some a ->
  m_ierr (this s) = 0 ->
  MPI_Iprobe (lib s) = (false, l1) ->
  PetscObjectDereference (Some a) l1 = (e1, l2) ->
  e1 <> 0 ->
  PetscObjectReference (Some a) l2 = (e2, l3) ->
  PetscFree (Some a) l3 = (q, l4) ->
  (dtor_petsc_smart_ptr_base s).1 =
    (if q is Some _ then Aborted PETSC_ERR_WRONGSTATE else Returned tt) /\
  this (dtor_petsc_smart_ptr_base s).2 =
    Wrapper (if q is Some _ then PETSC_ERR_WRONGSTATE else 0) q /\
  PetscFree_call (Some a) ∈ trace (dtor_petsc_smart_ptr_base s).2.
Proof.
  intros Hp He Hprobe Hderef _ Href Hfree.
  rewrite (dtor_proceeds s a l1 l2 l3 l4 e1 e2 q Hp He Hprobe Hderef Href Hfree).
  cbn. repeat split. rewrite elem_of_app. right.
  rewrite !elem_of_cons. auto.
Qed.

End DestructorShape.

(** ** Further properties of construction and access *)

Section ConstructionShape.
Context {L : Type} `{!Library L}.

(** X5: the copy constructor does not inherit the status of its source:
    the copied status is overwritten by the answer of the increment, so a
    copy of a wrapper in any error state is the copy of the same wrapper
    with a clean status.  The copy holds the source's handle, issues the
    increment on it as its only call, and returns normally exactly when
    the increment reports [0]. *)
Theorem copy_ignores_source_status (a : petsc_smart_ptr_base) (e : PetscError)
    (l : L) (tr : list call) :
  petsc_smart_ptr_base_copy (set_m_ierr e a) l tr = petsc_smart_ptr_base_copy a l tr /\
  m_ptr (this (petsc_smart_ptr_base_copy a l tr).2) = m_ptr a /\
  m_ierr (this (petsc_smart_ptr_base_copy a l tr).2) =
    (PetscObjectReference (m_ptr a) l).1 /\
  trace (petsc_smart_ptr_base_copy a l tr).2 =
    tr ++ [PetscObjectReference_call (m_ptr a)] /\
  ((petsc_smart_ptr_base_copy a l tr).1 = Returned tt <->
   (PetscObjectReference (m_ptr a) l).1 = 0).
Proof.
  destruct a as [e0 p]. unfold petsc_smart_ptr_base_copy. unfold_member.
  destruct (PetscObjectReference p l) as [e1 l1]; cbn.
  split; [reflexivity|].
  destruct (Z.eqb_spec e1 0) as [->|Hne]; cbn; repeat split; try done.
Qed.

(** X6: member access returns the handle that [get()] returns and talks
    to no collaborator; unlike [get()], on a null handle it overwrites the
    status with [PETSC_ERR_POINTER].  On a non-null handle it changes
    nothing, and calling it a second time never changes anything more. *)
Theorem operator_arrow_idempotent (s : state L) :
  (operator_arrow s).1 = (get s).1 /\
  (get s).2 = s /\
  (operator_arrow s).2 =
    (if m_ptr (this s) is Some _ then s
     else State (Wrapper PETSC_ERR_POINTER NULL) (lib s) (trace s)) /\
  operator_arrow (operator_arrow s).2 = operator_arrow s.
Proof.
  destruct s as [[e p] l tr]. unfold_member.
  destruct p; cbn; repeat split.
Qed.

(** X7: the two overloads of the status query agree, whatever the
    caller's slot held, and neither clears or changes anything; queried
    after a member access they report [PETSC_ERR_POINTER] when the handle
    is null, which replaces whatever status was there, and the unchanged
    status otherwise. *)
Theorem status_query_after_member_access (s : state L) (slot : PetscError) :
  request_ierr s = (Returned (m_ierr (this s)), s) /\
  request_ierr_into slot s = request_ierr s /\
  (request_ierr (operator_arrow s).2).1 =
    Returned (if m_ptr (this s) is Some _ then m_ierr (this s)
              else PETSC_ERR_POINTER).
Proof.
  destruct s as [[e p] l tr]. unfold_member.
  destruct p; cbn; repeat split.
Qed.

(** X8: the default constructor of the base succeeds exactly on a
    non-null allocation, with status [0]; on a failed allocation it leaves
    through the fatal path with [PETSC_ERR_MEM] in the status.  It issues
    no call, and the wrapper left by a failed allocation is destroyed
    without any call. *)
Theorem default_ctor_checks_allocation (mem : handle) (l : L) (tr : list call) :
  petsc_smart_ptr_base_default mem l tr =
    (if mem is Some _ then Returned tt else Aborted PETSC_ERR_MEM,
     State (Wrapper (if mem is Some _ then 0 else PETSC_ERR_MEM) mem) l tr) /\
  dtor_petsc_smart_ptr_base (petsc_smart_ptr_base_default NULL l tr).2 =
    (Returned tt, State (Wrapper PETSC_ERR_MEM NULL) l tr).
Proof.
  unfold petsc_smart_ptr_base_default. unfold_member.
  destruct mem; cbn; split; reflexivity.
Qed.

(** X9: no constructor of the unspecialised template ever returns
    normally.  The default form ends with [PETSC_ERR_SUP], or with
    [PETSC_ERR_MEM] when the allocation failed; the pointer and reference
    forms end with [PETSC_ERR_SUP], or with the status of the increment
    when that failed, and in both cases the increment on the given object
    has been issued by then. *)
Theorem unspecialised_construction_is_fatal (mem ptr : handle) (a : addr)
    (l : L) (tr : list call) :
  petsc_smart_ptr_default mem l tr =
    (Aborted (if mem is Some _ then PETSC_ERR_SUP else PETSC_ERR_MEM),
     State (Wrapper (if mem is Some _ then PETSC_ERR_SUP else PETSC_ERR_MEM) mem)
       l tr) /\
  (let e0 := (PetscObjectReference ptr l).1 in
   let e := if e0 =? 0 then PETSC_ERR_SUP else e0 in
   petsc_smart_ptr_from_ptr ptr l tr =
     (Aborted e,
      State (Wrapper e ptr) (PetscObjectReference ptr l).2
        (tr ++ [PetscObjectReference_call ptr])) /\
   e <> 0) /\
  petsc_smart_ptr_from_ref a l tr = petsc_smart_ptr_from_ptr (Some a) l tr.
Proof.
  split; [|split].
  - unfold petsc_smart_ptr_default, unsupported_body, petsc_smart_ptr_base_default.
    unfold_member. destruct mem; reflexivity.
  - unfold petsc_smart_ptr_from_ptr, unsupported_body, petsc_smart_ptr_base_from_ptr.
    unfold_member. destruct (PetscObjectReference ptr l) as [e0 l1]; cbn.
    destruct (Z.eqb_spec e0 0) as [->|Hne]; cbn.
    + split; [reflexivity|discriminate].
    + split; [reflexivity|exact Hne].
  - reflexivity.
Qed.

(** X10: whether the matrix constructor returns normally is decided by
    the base constructor's increment alone.  When the increment fails the
    constructor leaves through the fatal path with that status, still
    holding the pointer it was given, and [MatCreate] is never called;
    when it succeeds [MatCreate] is called once and the wrapper ends up
    holding whatever that call left in the pointer, with status [0]. *)
Theorem mat_ctor_outcome (ptr : handle) (comm : MPI_Comm) (l : L) (tr : list call) :
  let e0 := (PetscObjectReference ptr l).1 in
  let l1 := (PetscObjectReference ptr l).2 in
  petsc_smart_ptr_Mat ptr comm l tr =
    if e0 =? 0 then
      (Returned tt,
       State (Wrapper 0 (MatCreate comm ptr l1).1.2) (MatCreate comm ptr l1).2
         (tr ++ [PetscObjectReference_call ptr; MatCreate_call comm]))
    else
      (Aborted e0,
       State (Wrapper e0 ptr) l1 (tr ++ [PetscObjectReference_call ptr])).
Proof.
  unfold petsc_smart_ptr_Mat, petsc_smart_ptr_base_from_ptr. unfold_member.
  destruct (PetscObjectReference ptr l) as [e0 l1]; cbn.
  destruct (Z.eqb_spec e0 0) as [->|Hne]; cbn.
  - destruct (MatCreate comm ptr l1) as [[e1 q] l2]; cbn.
    rewrite <- app_assoc. reflexivity.
  - reflexivity.
Qed.

(** The two ways through the destructor of the draft past the probe. *)
Lemma draft_dtor_run (s : state L) :
  let flag := (MPI_Iprobe (lib s)).1 in
  let l1 := (MPI_Iprobe (lib s)).2 in
  let p := m_ptr (this s) in
  Draft.dtor_petsc_smart_ptr_base s =
    if flag then
      (Aborted PETSC_ERR_SIG,
       State (set_m_ierr PETSC_ERR_SIG (this s)) l1 (trace s ++ [MPI_Iprobe_call]))
    else if m_ierr (this s) =? 0 then
      (if (PetscFree p l1).1 is Some _ then Aborted PETSC_ERR_WRONGSTATE
       else Returned tt,
       State (Wrapper (if (PetscFree p l1).1 is Some _ then PETSC_ERR_WRONGSTATE
                       else 0)
                (PetscFree p l1).1)
         (PetscFree p l1).2
         (trace s ++ [MPI_Iprobe_call; PetscFree_call p]))
    else
      (Aborted (m_ierr (this s)), State (this s) l1 (trace s ++ [MPI_Iprobe_call])).
Proof.
  destruct s as [[e p] l tr]. unfold_member.
  destruct (MPI_Iprobe l) as [flag l1]; cbn.
  destruct flag; cbn; [reflexivity|].
  destruct (Z.eqb_spec e 0) as [->|Hne]; cbn.
  - destruct (PetscFree p l1) as [q l2]; cbn.
    rewrite <- app_assoc. destruct q; reflexivity.
  - reflexivity.
Qed.

(** X11: the destructor of the draft has no guard: it probes on every
    wrapper, the null one included, and when it returns normally it has
    issued exactly the probe and the free of the handle it held, the
    wrapper came in with status [0], and it is left with a null handle and
    status [0]. *)
Theorem draft_dtor_returns_only_emptied (s s' : state L) :
  Draft.dtor_petsc_smart_ptr_base s = (Returned tt, s') ->
  m_ierr (this s) = 0 /\
  this s' = Wrapper 0 NULL /\
  trace s' = trace s ++ [MPI_Iprobe_call; PetscFree_call (m_ptr (this s))].
Proof.
  rewrite draft_dtor_run. cbv zeta.
  destruct (MPI_Iprobe (lib s)).1; [discriminate|].
  destruct (Z.eqb_spec (m_ierr (this s)) 0) as [He|He]; [|discriminate].
  destruct (PetscFree (m_ptr (this s)) (MPI_Iprobe (lib s)).2).1 eqn:Hq;
    [discriminate|].
  intros [= <-]. cbn. repeat split. exact He.
Qed.

(** X12: the draft never touches a reference count.  Its constructors
    from a reference and from a pointer issue no call and always return
    normally with status [0], the null pointer included; its destructor
    always issues the probe first and never a reference-count call. *)
Theorem draft_never_touches_refcounts (s : state L) (ptr : handle)
    (a : addr) (l : L) (tr : list call) :
  Draft.petsc_smart_ptr_base_from_ptr ptr l tr =
    (Returned tt, State (Wrapper 0 ptr) l tr) /\
  Draft.petsc_smart_ptr_base_from_ref a l tr =
    (Returned tt, State (Wrapper 0 (Some a)) l tr) /\
  exists rest,
    trace (Draft.dtor_petsc_smart_ptr_base s).2 =
      trace s ++ MPI_Iprobe_call :: rest /\
    no_refcount_call (MPI_Iprobe_call :: rest) = true.
Proof.
  split; [reflexivity|]. split; [reflexivity|].
  rewrite draft_dtor_run. cbv zeta.
  destruct (MPI_Iprobe (lib s)).1; [exists []; split; reflexivity|].
  destruct (m_ierr (this s) =? 0); [|exists []; split; reflexivity].
  eexists. cbn. split; reflexivity.
Qed.

End ConstructionShape.

(** ** Sharing, moving and matrices on the reference library *)





(** X16: a matrix wrapper built on a live matrix [h] and then destroyed,
    on a library that can allocate.  The constructor takes a reference on
    [h] and then makes the wrapper hold a new matrix instead; the
    destructor releases that new matrix through the matrix destroy call
    and nothing else.  At the end the wrapper is empty and the library is
    as it was before, except that [h] has one reference more. *)
Theorem mat_wrapper_round_trip (l : petsc) (h : addr) (n : PetscInt)
    (comm : MPI_Comm) (tr : list call) :
  objects l !! h = Some n ->
  heap_full l = false ->
  let c := petsc_smart_ptr_Mat (Some h) comm l tr in
  let d := dtor_petsc_smart_ptr_Mat c.2 in
  c.1 = Returned tt /\
  m_ierr (this c.2) = 0 /\
  count_of (Some h) (lib c.2) = Some (n + 1) /\
  (exists a,
     m_ptr (this c.2) = Some a /\ a <> h /\ objects l !! a = None /\
     count_of (Some a) (lib c.2) = Some 1 /\
     trace d.2 =
       tr ++ [PetscObjectReference_call (Some h); MatCreate_call comm;
              MatDestroy_call (Some a)]) /\
  d.1 = Returned tt /\
  this d.2 = Wrapper 0 NULL /\
  objects (lib d.2) = <[h := n + 1]> (objects l).
Proof.
  intros Hn Hroom c d. subst d c.
  set (m1 := <[h := n + 1]> (objects l)).
  set (a := fresh (dom m1)).
  assert (Hfresh : m1 !! a = None) by (apply not_elem_of_dom, is_fresh).
  assert (Hah : a <> h).
  { intros ->. unfold m1 in Hfresh. rewrite lookup_insert_eq in Hfresh. discriminate. }
  assert (Hla : objects l !! a = None).
  { unfold m1 in Hfresh. rewrite lookup_insert_ne in Hfresh by congruence. exact Hfresh. }
  rewrite (mat_ctor_keeps_base_status (Some h) comm l (with_objects m1 l)
             (with_objects (<[a := 1]> m1) (with_objects m1 l)) tr 0 (Some a)).
  2:{ cbn. unfold petsc_ObjectReference. rewrite Hn. reflexivity. }
  2:{ cbn. unfold petsc_MatCreate. cbn. rewrite Hroom. reflexivity. }
  cbn [fst snd this lib trace m_ierr m_ptr].
  split; [reflexivity|]. split; [reflexivity|].
  split. { cbn. rewrite lookup_insert_ne by congruence. apply lookup_insert_eq. }
  assert (Hrun : dtor_petsc_smart_ptr_Mat
            (State (Wrapper 0 (Some a))
               (with_objects (<[a := 1]> m1) (with_objects m1 l))
               (tr ++ [PetscObjectReference_call (Some h); MatCreate_call comm])) =
          (Returned tt,
           State (Wrapper 0 NULL) (with_objects m1 l)
             (tr ++ [PetscObjectReference_call (Some h); MatCreate_call comm;
                     MatDestroy_call (Some a)]))).
  { unfold dtor_petsc_smart_ptr_Mat.
    unfold mbind, M_bind, invoke, read_m_ptr, write_m_ptr.
    cbn [this lib trace m_ptr m_ierr MatDestroy petsc_library].
    unfold petsc_MatDestroy. cbn [objects with_objects].
    rewrite lookup_insert_eq. cbn.
    rewrite delete_insert_eq, (delete_id m1 a Hfresh), <- app_assoc.
    reflexivity. }
  rewrite Hrun. cbn [fst snd this lib trace].
  split.
  { exists a. repeat split; try assumption. cbn. apply lookup_insert_eq. }
  repeat split.
Qed.

(** ** The further statements at concrete inputs *)

(** The sole holder of a live object, destroyed on a quiet library. *)
Lemma dtor_returns_only_emptied_witness :
  let s := State (Wrapper 0 h1) (one_object 1) [] in
  let s' := (dtor_petsc_smart_ptr_base s).2 in
  dtor_petsc_smart_ptr_base s = (Returned tt, s') /\
  m_ptr (this s') = NULL /\
  dtor_petsc_smart_ptr_base s' = (Returned tt, s').
Proof.
  intros s s'.
  assert (Hrun : dtor_petsc_smart_ptr_base s = (Returned tt, s'))
    by (vm_compute; reflexivity).
  split; [exact Hrun|].
  exact (dtor_returns_only_emptied s s' Hrun).
Defined.

(** A wrapper destroyed while a message is pending. *)
Lemma dtor_abort_status_witness :
  let s := State (Wrapper 0 h1) busy_library [] in
  let s' := (dtor_petsc_smart_ptr_base s).2 in
  dtor_petsc_smart_ptr_base s = (Aborted PETSC_ERR_SIG, s') /\
  PETSC_ERR_SIG <> 0 /\
  m_ierr (this s') = PETSC_ERR_SIG /\
  m_ptr (this s') <> NULL.
Proof.
  intros s s'.
  assert (Hrun : dtor_petsc_smart_ptr_base s = (Aborted PETSC_ERR_SIG, s'))
    by (vm_compute; reflexivity).
  split; [exact Hrun|].
  pose proof (dtor_abort_status s s' PETSC_ERR_SIG Hrun) as (Hne & He & Hp & _).
  split; [exact Hne|]. split; [exact He|exact Hp].
Defined.

(** A wrapper whose handle names no live object: the decrement fails with
    the corrupt-argument code, which the destructor does not report. *)
Lemma dtor_swallows_decrement_failure_witness :
  let l := one_object 1 in
  let s := State (Wrapper 0 (Some 2%positive)) l [] in
  PetscObjectDereference (Some 2%positive) l = (PETSC_ERR_ARG_CORRUPT, l) /\
  PETSC_ERR_ARG_CORRUPT <> 0 /\
  (dtor_petsc_smart_ptr_base s).1 = Aborted PETSC_ERR_WRONGSTATE /\
  this (dtor_petsc_smart_ptr_base s).2 =
    Wrapper PETSC_ERR_WRONGSTATE (Some 2%positive).
Proof.
  intros l s.
  assert (Hderef : PetscObjectDereference (Some 2%positive) l =
                   (PETSC_ERR_ARG_CORRUPT, l)) by (vm_compute; reflexivity).
  assert (Hne : PETSC_ERR_ARG_CORRUPT <> 0) by discriminate.
  assert (Href : PetscObjectReference (Some 2%positive) l =
                 (PETSC_ERR_ARG_CORRUPT, l)) by (vm_compute; reflexivity).
  assert (Hfree : PetscFree (Some 2%positive) l = (Some 2%positive, l))
    by (vm_compute; reflexivity).
  split; [exact Hderef|]. split; [exact Hne|].
  pose proof (dtor_swallows_decrement_failure s 2%positive l l l l
                PETSC_ERR_ARG_CORRUPT PETSC_ERR_ARG_CORRUPT (Some 2%positive)
                eq_refl eq_refl eq_refl Hderef Hne Href Hfree) as (Ho & Hthis & _).
  split; [exact Ho|exact Hthis].
Defined.

(** The draft destructor on the holder of a live object, quiet library. *)
Lemma draft_dtor_returns_only_emptied_witness :
  let s := State (Wrapper 0 h1) (one_object 1) [] in
  let s' := (Draft.dtor_petsc_smart_ptr_base s).2 in
  Draft.dtor_petsc_smart_ptr_base s = (Returned tt, s') /\
  this s' = Wrapper 0 NULL /\
  trace s' = [] ++ [MPI_Iprobe_call; PetscFree_call h1].
Proof.
  intros s s'.
  assert (Hrun : Draft.dtor_petsc_smart_ptr_base s = (Returned tt, s'))
    by (vm_compute; reflexivity).
  split; [exact Hrun|].
  pose proof (draft_dtor_returns_only_emptied s s' Hrun) as (_ & Hthis & Htrace).
  split; [exact Hthis|exact Htrace].
Defined.



(** A copy of the sole holder of a live object. *)
Lemma copy_increments_by_one_witness :
  let l := one_object 1 in
  let a := Wrapper 0 h1 in
  m_ptr a = Some 1%positive /\
  objects l !! 1%positive = Some 1 /\
  petsc_smart_ptr_base_copy a l [] =
    (Returned tt,
     State (Wrapper 0 h1)
       (with_objects (<[1%positive := 1 + 1]> (objects l)) l)
       ([] ++ [PetscObjectReference_call h1])).
Proof.
  intros l a.
  assert (Hn : objects l !! 1%positive = Some 1) by (vm_compute; reflexivity).
  split; [reflexivity|]. split; [exact Hn|].
  exact (copy_increments_by_one a 1%positive 1 l [] eq_refl Hn).
Defined.

(** A matrix wrapper built on a matrix with one reference, then
    destroyed. *)
Lemma mat_wrapper_round_trip_witness :
  let l := one_object 1 in
  let c := petsc_smart_ptr_Mat h1 0 l [] in
  let d := dtor_petsc_smart_ptr_Mat c.2 in
  objects l !! 1%positive = Some 1 /\
  heap_full l = false /\
  c.1 = Returned tt /\
  count_of h1 (lib c.2) = Some (1 + 1) /\
  this d.2 = Wrapper 0 NULL /\
  objects (lib d.2) = <[1%positive := 1 + 1]> (objects l).
Proof.
  intros l c d.
  assert (Hn : objects l !! 1%positive = Some 1) by (vm_compute; reflexivity).
  split; [exact Hn|]. split; [reflexivity|].
  pose proof (mat_wrapper_round_trip l 1%positive 1 0 [] Hn eq_refl)
    as (Hc & _ & Hcount & _ & _ & Hthis & Hobjects).
  split; [exact Hc|]. split; [exact Hcount|]. split; [exact Hthis|exact Hobjects].
Defined.
